(** * flutter/display_list/display_list.h

    A shallow embedding of the DisplayList header of the Flutter engine:
    the operation-kind enumeration, the [SaveLayerOptions] flag word, the
    [DlStorage] accessors and the [DisplayList] accessors are transcribed
    from the header.  The bodies that live in display_list.cc and
    dl_op_records.h (record encoding, the dispatch loop, structural
    equality) are not part of the header; where a result needs them they
    are modelled from the written specification and every such
    definition says so in its comment.  What [next_unique_id] does is
    left open: the results on identifiers use only the [uint32_t] type
    of [unique_id()]. *)

From Stdlib Require Import ZArith List Bool Lia Sorted.
Import ListNotations.
Local Open Scope Z_scope.

(* ================================================================== *)
(** * Part I: definitions *)
(* ================================================================== *)

(** ** Fixed-width unsigned arithmetic *)

Module Width.

(** The value kept by a [bits]-wide unsigned integer after an operation
    whose mathematical result is [x]. *)
Definition wrap (bits x : Z) : Z := x mod 2 ^ bits.

(** Unsigned addition at a given width, as C++ performs it. *)
Definition add (bits a b : Z) : Z := wrap bits (a + b).

Definition in_range (bits x : Z) : Prop := 0 <= x < 2 ^ bits.

(** [unsigned int] and [uint32_t]. *)
Definition uint_bits : Z := 32.

End Width.

(** ** Option as the error monad

    [None] is an aborted run: a failed [FML_DCHECK], or a decode that
    would leave the written part of the storage. *)

Definition bind {A B : Type} (m : option A) (k : A -> option B) : option B :=
  match m with
  | Some a => k a
  | None => None
  end.

Notation "x <- m ;; k" := (bind m (fun x => k))
  (at level 61, m at next level, right associativity).

(** [FML_DCHECK(cond)] of fml/logging.h, which the header includes.
    With debug checks compiled in, the run continues only when [cond]
    holds; with them compiled out the macro expands to nothing. *)
Definition FML_DCHECK (enabled cond : bool) : option unit :=
  if enabled then (if cond then Some tt else None) else Some tt.

(** A C++ default argument: the callee sees [dflt] when the call site
    passes nothing. *)
Definition default_arg {A : Type} (dflt : A) (arg : option A) : A :=
  match arg with
  | Some a => a
  | None => dflt
  end.

(** ** DisplayListOpType

    The enumerators produced by [FOR_EACH_DISPLAY_LIST_OP] with
    [DL_OP_TO_ENUM_VALUE], in macro order (the [IMPELLER_ENABLE_3D]
    enumerator is configured out). *)

Inductive DisplayListOpType : Set :=
  | kSetAntiAlias | kSetDither | kSetInvertColors
  | kSetStrokeCap | kSetStrokeJoin
  | kSetStyle | kSetStrokeWidth | kSetStrokeMiter
  | kSetColor | kSetBlendMode
  | kSetPodPathEffect | kClearPathEffect
  | kClearColorFilter | kSetPodColorFilter
  | kClearColorSource | kSetPodColorSource | kSetImageColorSource
  | kSetRuntimeEffectColorSource
  | kClearImageFilter | kSetPodImageFilter | kSetSharedImageFilter
  | kClearMaskFilter | kSetPodMaskFilter
  | kSave | kSaveLayer | kSaveLayerBounds | kSaveLayerBackdrop
  | kSaveLayerBackdropBounds | kRestore
  | kTranslate | kScale | kRotate | kSkew | kTransform2DAffine
  | kTransformFullPerspective | kTransformReset
  | kClipIntersectRect | kClipIntersectRRect | kClipIntersectPath
  | kClipDifferenceRect | kClipDifferenceRRect | kClipDifferencePath
  | kDrawPaint | kDrawColor
  | kDrawLine | kDrawRect | kDrawOval | kDrawCircle | kDrawRRect
  | kDrawDRRect | kDrawArc | kDrawPath
  | kDrawPoints | kDrawLines | kDrawPolygon | kDrawVertices
  | kDrawImage | kDrawImageWithAttr | kDrawImageRect | kDrawImageNine
  | kDrawImageNineWithAttr | kDrawAtlas | kDrawAtlasCulled
  | kDrawDisplayList | kDrawTextBlob
  | kDrawShadow | kDrawShadowTransparentOccluder.

Scheme Equality for DisplayListOpType.

(** The enumerators in declaration order; an enumerator's value is its
    position in this list. *)
Definition all_op_types : list DisplayListOpType :=
  [ kSetAntiAlias; kSetDither; kSetInvertColors;
    kSetStrokeCap; kSetStrokeJoin;
    kSetStyle; kSetStrokeWidth; kSetStrokeMiter;
    kSetColor; kSetBlendMode;
    kSetPodPathEffect; kClearPathEffect;
    kClearColorFilter; kSetPodColorFilter;
    kClearColorSource; kSetPodColorSource; kSetImageColorSource;
    kSetRuntimeEffectColorSource;
    kClearImageFilter; kSetPodImageFilter; kSetSharedImageFilter;
    kClearMaskFilter; kSetPodMaskFilter;
    kSave; kSaveLayer; kSaveLayerBounds; kSaveLayerBackdrop;
    kSaveLayerBackdropBounds; kRestore;
    kTranslate; kScale; kRotate; kSkew; kTransform2DAffine;
    kTransformFullPerspective; kTransformReset;
    kClipIntersectRect; kClipIntersectRRect; kClipIntersectPath;
    kClipDifferenceRect; kClipDifferenceRRect; kClipDifferencePath;
    kDrawPaint; kDrawColor;
    kDrawLine; kDrawRect; kDrawOval; kDrawCircle; kDrawRRect;
    kDrawDRRect; kDrawArc; kDrawPath;
    kDrawPoints; kDrawLines; kDrawPolygon; kDrawVertices;
    kDrawImage; kDrawImageWithAttr; kDrawImageRect; kDrawImageNine;
    kDrawImageNineWithAttr; kDrawAtlas; kDrawAtlasCulled;
    kDrawDisplayList; kDrawTextBlob;
    kDrawShadow; kDrawShadowTransparentOccluder ].

Fixpoint position_of (t : DisplayListOpType) (l : list DisplayListOpType)
  : Z :=
  match l with
  | [] => 0
  | u :: rest =>
      if DisplayListOpType_beq t u then 0 else 1 + position_of t rest
  end.

(** [static_cast<int>(type)]. *)
Definition enum_value (t : DisplayListOpType) : Z :=
  position_of t all_op_types.

(** The enumerator with a given value, when there is one. *)
Definition enum_of_value (v : Z) : option DisplayListOpType :=
  if v <? 0 then None else nth_error all_op_types (Z.to_nat v).

(** ** SaveLayerOptions *)

Module SaveLayerOptions.

(** The class is one anonymous union: the 32-bit word [flags_] overlaid
    with two one-bit bit-fields. *)
Record t : Set := Make { flags_ : Z }.

(** Where the two bit-fields sit inside [flags_]: bit-fields are
    allocated from the least significant bit upward (the layout of the
    little-endian ABIs the engine is built for), in declaration order. *)
Definition fRendersWithAttributes_bit : Z := 0.
Definition fCanDistributeOpacity_bit : Z := 1.

(** Reading a one-bit unsigned bit-field. *)
Definition read_bitfield (pos : Z) (o : t) : bool :=
  Z.testbit (flags_ o) pos.

(** Assigning to a one-bit unsigned bit-field; the other bits of the
    word stay as they are. *)
Definition write_bitfield (pos : Z) (v : bool) (o : t) : t :=
  {| flags_ := if v then Z.setbit (flags_ o) pos
               else Z.clearbit (flags_ o) pos |}.

Definition fRendersWithAttributes : t -> bool :=
  read_bitfield fRendersWithAttributes_bit.
Definition fCanDistributeOpacity : t -> bool :=
  read_bitfield fCanDistributeOpacity_bit.

(** [SaveLayerOptions() : flags_(0) {}] *)
Definition default : t := {| flags_ := 0 |}.

(** [SaveLayerOptions(const SaveLayerOptions& options)] *)
Definition copy (options : t) : t := {| flags_ := flags_ options |}.

(** [SaveLayerOptions(const SaveLayerOptions* options)] *)
Definition copy_from_pointer (options : t) : t :=
  {| flags_ := flags_ options |}.

Definition without_optimizations (this : t) : t :=
  let options := default in
  let options :=
    write_bitfield fRendersWithAttributes_bit
      (fRendersWithAttributes this) options in
  options.

Definition renders_with_attributes (this : t) : bool :=
  fRendersWithAttributes this.

Definition with_renders_with_attributes (this : t) : t :=
  let options := copy_from_pointer this in
  let options := write_bitfield fRendersWithAttributes_bit true options in
  options.

Definition can_distribute_opacity (this : t) : bool :=
  fCanDistributeOpacity this.

Definition with_can_distribute_opacity (this : t) : t :=
  let options := copy_from_pointer this in
  let options := write_bitfield fCanDistributeOpacity_bit true options in
  options.

(** [operator=]: the left-hand side after the assignment. *)
Definition assign (this other : t) : t := {| flags_ := flags_ other |}.

(** [operator==] *)
Definition eqb (this other : t) : bool := flags_ this =? flags_ other.

(** [operator!=] *)
Definition neqb (this other : t) : bool :=
  match flags_ this ?= flags_ other with
  | Eq => false
  | _ => true
  end.

(** The values a [uint32_t] member can hold. *)
Definition wf (o : t) : Prop := Width.in_range 32 (flags_ o).

End SaveLayerOptions.

(** The values a program can obtain through the header alone: the
    default constructor, the two copy constructors, the three member
    functions that return a value, and assignment between such values. *)
Inductive SaveLayerOptions_reachable : SaveLayerOptions.t -> Prop :=
  | reach_default :
      SaveLayerOptions_reachable SaveLayerOptions.default
  | reach_copy (o : SaveLayerOptions.t) :
      SaveLayerOptions_reachable o ->
      SaveLayerOptions_reachable (SaveLayerOptions.copy o)
  | reach_copy_from_pointer (o : SaveLayerOptions.t) :
      SaveLayerOptions_reachable o ->
      SaveLayerOptions_reachable (SaveLayerOptions.copy_from_pointer o)
  | reach_without_optimizations (o : SaveLayerOptions.t) :
      SaveLayerOptions_reachable o ->
      SaveLayerOptions_reachable (SaveLayerOptions.without_optimizations o)
  | reach_with_renders_with_attributes (o : SaveLayerOptions.t) :
      SaveLayerOptions_reachable o ->
      SaveLayerOptions_reachable
        (SaveLayerOptions.with_renders_with_attributes o)
  | reach_with_can_distribute_opacity (o : SaveLayerOptions.t) :
      SaveLayerOptions_reachable o ->
      SaveLayerOptions_reachable
        (SaveLayerOptions.with_can_distribute_opacity o)
  | reach_assign (this other : SaveLayerOptions.t) :
      SaveLayerOptions_reachable this ->
      SaveLayerOptions_reachable other ->
      SaveLayerOptions_reachable (SaveLayerOptions.assign this other).

(** ** Storage contents *)

(** Modelled from the spec: what the storage bytes hold is decided by
    the record types of dl_op_records.h, which the header does not
    include.  The storage is a malloc'ed region in which the operation
    records are constructed in place.  One position of it holds either
    one byte of plain geometric or scalar data, or an ownership handle
    to an external resource (an image, a path, a filter, a nested
    display list).  A handle is the address of the resource it keeps
    alive; what the resource contains is outside this file. *)
Inductive memval : Set :=
  | Plain (byte : Z)
  | Shared (handle : Z).

(** The region a [std::unique_ptr<uint8_t, FreeDeleter>] owns: where it
    is and what it holds. *)
Record Block : Set := { base : Z; cells : list memval }.

(** ** DisplayList::DlStorage *)

Module DlStorage.

Record t : Set := {
  ptr_ : option Block;        (* [None] is the null pointer *)
  disabled_ : bool;
  used_ : Z;                  (* size_t *)
  allocated_ : Z              (* size_t *)
}.

Definition kPageSize : Z := 4096.

(** [DlStorage() = default], with the member initialisers. *)
Definition default : t :=
  {| ptr_ := None; disabled_ := false; used_ := 0; allocated_ := 0 |}.

(** [ptr_.get()] as an address; the null pointer is address 0. *)
Definition get (this : t) : Z :=
  match ptr_ this with
  | Some b => base b
  | None => 0
  end.

Definition end_ (this : t) : Z := get this + used_ this.
Definition used (this : t) : Z := used_ this.
Definition allocated (this : t) : Z := allocated_ this.
Definition is_valid (this : t) : bool := negb (disabled_ this).

(** What lies between [get()] and [end()]: the written part of the
    region. *)
Definition written (this : t) : list memval :=
  match ptr_ this with
  | Some b => firstn (Z.to_nat (used_ this)) (cells b)
  | None => []
  end.

End DlStorage.

(** ** Types of Skia and of dl_rtree.h that the header only names *)

(** Modelled from the spec: [SkRect] is Skia's and not in the header.
    An axis-aligned region given by four coordinates, each carried as
    the 32-bit pattern it is stored as; no arithmetic on them is needed
    here. *)
Record SkRect : Set := { fLeft : Z; fTop : Z; fRight : Z; fBottom : Z }.

(** Modelled from the spec: [DlRTree] is declared in dl_rtree.h, not in
    the header.  The spatial index is an opaque object that the display
    list reaches through a shared pointer, null or not. *)
Record DlRTree : Set := { rtree_object : Z }.

(** ** DisplayList *)

Record DisplayList : Set := {
  storage_ : DlStorage.t;
  op_count_ : Z;                       (* unsigned int *)
  nested_byte_count_ : Z;              (* size_t *)
  nested_op_count_ : Z;                (* unsigned int *)
  unique_id_ : Z;                      (* uint32_t *)
  bounds_ : SkRect;
  can_apply_group_opacity_ : bool;
  is_ui_thread_safe_ : bool;
  modifies_transparent_black_ : bool;
  rtree_ : option DlRTree              (* shared_ptr, [None] is null *)
}.

Section DisplayListModel.

(** What the build fixes and the header leaves open: the width of
    [size_t], [sizeof(DisplayList)], and whether the debug checks of
    fml/logging.h are compiled in. *)
Variable size_t_bits : Z.
Variable sizeof_DisplayList : Z.
Variable dchecks_enabled : bool.

(** Addition of two [size_t] values. *)
Definition size_add (a b : Z) : Z := Width.add size_t_bits a b.

(** Addition of two [unsigned int] values. *)
Definition uint_add (a b : Z) : Z := Width.add Width.uint_bits a b.

(** The values the members can hold, by their declared types. *)
Record DisplayList_wf (dl : DisplayList) : Prop := {
  wf_op_count : Width.in_range Width.uint_bits (op_count_ dl);
  wf_nested_op_count : Width.in_range Width.uint_bits (nested_op_count_ dl);
  wf_nested_byte_count : Width.in_range size_t_bits (nested_byte_count_ dl);
  wf_unique_id : Width.in_range 32 (unique_id_ dl);
  wf_used : Width.in_range size_t_bits (DlStorage.used_ (storage_ dl));
  wf_allocated :
    Width.in_range size_t_bits (DlStorage.allocated_ (storage_ dl))
}.

(** [size_t bytes(bool nested = true) const] *)
Definition bytes (this : DisplayList) (nested : option bool) : option Z :=
  let nested := default_arg true nested in
  _ <- FML_DCHECK dchecks_enabled
         (DlStorage.used (storage_ this)
          =? DlStorage.allocated (storage_ this)) ;;
  Some (size_add
          (size_add sizeof_DisplayList (DlStorage.allocated (storage_ this)))
          (if nested then nested_byte_count_ this else 0)).

(** [unsigned int op_count(bool nested = false) const] *)
Definition op_count (this : DisplayList) (nested : option bool) : Z :=
  let nested := default_arg false nested in
  uint_add (op_count_ this) (if nested then nested_op_count_ this else 0).

Definition unique_id (this : DisplayList) : Z := unique_id_ this.

Definition bounds (this : DisplayList) : SkRect := bounds_ this.

Definition has_rtree (this : DisplayList) : bool :=
  match rtree_ this with
  | Some _ => true
  | None => false
  end.

Definition rtree (this : DisplayList) : option DlRTree := rtree_ this.

Definition can_apply_group_opacity (this : DisplayList) : bool :=
  can_apply_group_opacity_ this.

Definition isUIThreadSafe (this : DisplayList) : bool :=
  is_ui_thread_safe_ this.

Definition modifies_transparent_black (this : DisplayList) : bool :=
  modifies_transparent_black_ this.

(** ** Operation records and their encoding *)

(** Modelled from the spec: the record types of dl_op_records.h are not
    in the header.  Following the specification's data model, an
    operation record is a type tag out of the closed enumeration and a
    payload of plain data and shared ownership handles. *)
Record OpRecord : Set := {
  op_type : DisplayListOpType;
  op_payload : list memval
}.

Definition memval_okb (m : memval) : bool :=
  match m with
  | Plain b => (0 <=? b) && (b <? 256)
  | Shared _ => true
  end.

(** Modelled from the spec: the largest payload the length field of a
    record can describe (three bytes). *)
Definition kMaxPayload : Z := 2 ^ 24.

(** A record the encoder accepts: the specification leaves validation to
    the builder and assumes well-formed input. *)
Definition encodable (op : OpRecord) : bool :=
  (Z.of_nat (length (op_payload op)) <? kMaxPayload)
  && forallb memval_okb (op_payload op).

(** Modelled from the spec: the encoder of dl_op_records.h is not in the
    header.  A record is self-describing: one byte of type tag, the
    payload length (three bytes, least significant first), then the
    payload in place, with no padding. *)
Definition encode_record (op : OpRecord) : list memval :=
  let n := Z.of_nat (length (op_payload op)) in
  Plain (enum_value (op_type op))
    :: Plain (n mod 256)
    :: Plain ((n / 256) mod 256)
    :: Plain ((n / 65536) mod 256)
    :: op_payload op.

(** What the storage holds after the records were appended in order: a
    packed sequence. *)
Definition encode_ops (ops : list OpRecord) : list memval :=
  flat_map encode_record ops.

(** Modelled from the spec: the decoder that recovers kind and payload
    view from the start of a record.  [None] when the bytes are no
    record or the record would end past the written part. *)
Definition decode_record (buf : list memval)
  : option (OpRecord * list memval) :=
  match buf with
  | Plain tag :: Plain l0 :: Plain l1 :: Plain l2 :: rest =>
      match enum_of_value tag with
      | Some ty =>
          let n := Z.to_nat (l0 + 256 * l1 + 65536 * l2) in
          if (n <=? length rest)%nat
          then Some ({| op_type := ty; op_payload := firstn n rest |},
                     skipn n rest)
          else None
      | None => None
      end
  | _ => None
  end.

(** Modelled from the spec: the builder is an external collaborator.
    A display list that a builder finalized after recording [ops]: its
    storage holds the packed sequence of their encodings, and its local
    operation count counted them. *)
Definition recorded (dl : DisplayList) (ops : list OpRecord) : Prop :=
  DlStorage.written (storage_ dl) = encode_ops ops
  /\ forallb encodable ops = true
  /\ op_count_ dl = Width.wrap Width.uint_bits (Z.of_nat (length ops)).

(** ** Dispatch *)

(** Modelled from the spec: [DlOpReceiver] is only forward-declared in
    the header.  A receiver exposes one callback per operation kind;
    each acts on the receiver's own state [St]. *)
Record DlOpReceiver (St : Type) : Type := {
  callback : DisplayListOpType -> list memval -> St -> St
}.
Arguments callback {St} _ _ _ _.

(** The callback matching a decoded record, invoked with its payload. *)
Definition deliver {St : Type} (ctx : DlOpReceiver St) (op : OpRecord)
  (s : St) : St :=
  callback ctx (op_type op) (op_payload op) s.

(** Modelled from the spec: the loop of display_list.cc is not in the
    header.  It walks the written part of the storage from its start,
    decodes the record at the cursor, moves the cursor past it and
    invokes the matching callback; reaching the used-byte boundary is
    the only normal end, and a record that cannot be decoded inside the
    boundary is fatal.  [buf] is what lies between the cursor and the
    boundary. *)
Fixpoint dispatch_loop {St : Type} (fuel : nat) (ctx : DlOpReceiver St)
  (buf : list memval) (s : St) : option St :=
  match buf with
  | [] => Some s
  | _ :: _ =>
      match fuel with
      | O => None
      | S fuel' =>
          match decode_record buf with
          | Some (op, rest) => dispatch_loop fuel' ctx rest (deliver ctx op s)
          | None => None
          end
      end
  end.

(** Modelled from the spec: [void Dispatch(DlOpReceiver& ctx) const]
    is declared in the header and defined in display_list.cc.
    Unconditional dispatch is the loop over the whole written part.
    Every record takes at least four positions, so the length of that
    part bounds the number of iterations. *)
Definition Dispatch {St : Type} (this : DisplayList) (ctx : DlOpReceiver St)
  (s : St) : option St :=
  let region := DlStorage.written (storage_ this) in
  dispatch_loop (length region) ctx region s.

(** A receiver that re-records each call it gets. *)
Definition recorder : DlOpReceiver (list OpRecord) :=
  {| callback := fun ty payload calls =>
       calls ++ [ {| op_type := ty; op_payload := payload |} ] |}.

(** ** Structural equality *)

(** Equality of the resources two ownership handles refer to; each
    resource class brings its own (DlImage, DlColorFilter, ...), outside
    this file. *)
Variable res_equals : Z -> Z -> bool.

(** Modelled from the spec: the per-record comparisons of
    dl_op_records.h are not in the header.  Plain data compares by
    value, position by position; two handles compare by the equality of
    the resources, not by handle identity. *)
Definition memval_equals (a b : memval) : bool :=
  match a, b with
  | Plain x, Plain y => x =? y
  | Shared h, Shared k => res_equals h k
  | _, _ => false
  end.

Fixpoint payload_equals (p q : list memval) : bool :=
  match p, q with
  | [], [] => true
  | a :: p', b :: q' => memval_equals a b && payload_equals p' q'
  | _, _ => false
  end.

(** Same kind, and then the same parameters. *)
Definition record_equals (a b : OpRecord) : bool :=
  DisplayListOpType_beq (op_type a) (op_type b)
  && payload_equals (op_payload a) (op_payload b).

(** Record-by-record equality of two operation sequences: the
    relation the scan below decides, stated on decoded records. *)
Fixpoint ops_equal (l1 l2 : list OpRecord) : bool :=
  match l1, l2 with
  | [], [] => true
  | x :: l1', y :: l2' => record_equals x y && ops_equal l1' l2'
  | _, _ => false
  end.

(** Modelled from the spec: the comparison loop of display_list.cc is
    not in the header.  A linear scan over both written regions that
    decodes one record of each at a time and stops at the first
    mismatch; [None] is a fatal decode. *)
Fixpoint compare_ops (fuel : nat) (a b : list memval) : option bool :=
  match a, b with
  | [], [] => Some true
  | [], _ :: _ => Some false
  | _ :: _, [] => Some false
  | _ :: _, _ :: _ =>
      match fuel with
      | O => None
      | S fuel' =>
          match decode_record a, decode_record b with
          | Some (x, a'), Some (y, b') =>
              if record_equals x y then compare_ops fuel' a' b'
              else Some false
          | _, _ => None
          end
      end
  end.

(** Modelled from the spec: [bool Equals(const DisplayList* other)
    const] is declared in the header and defined in display_list.cc.
    Two display lists are equal when they hold the same count of
    operations and the scan finds the same kind and equal parameters at
    every position; the count is checked first.  A null [other] is no
    display list.  Neither [unique_id_] nor the address of the storage
    is looked at. *)
Definition Equals_ptr (this : DisplayList) (other : option DisplayList)
  : option bool :=
  match other with
  | None => Some false
  | Some o =>
      if op_count_ this =? op_count_ o
      then
        let a := DlStorage.written (storage_ this) in
        let b := DlStorage.written (storage_ o) in
        compare_ops (length a + length b) a b
      else Some false
  end.

(** [bool Equals(const DisplayList& other) const { return Equals(&other); }] *)
Definition Equals (this other : DisplayList) : option bool :=
  Equals_ptr this (Some other).

(** [bool Equals(const sk_sp<const DisplayList>& other) const] *)
Definition Equals_sk_sp (this : DisplayList) (other : option DisplayList)
  : option bool :=
  Equals_ptr this other.

(** ** Sample values *)

Definition sample_ops : list OpRecord :=
  [ {| op_type := kSetColor;
       op_payload := [Plain 255; Plain 0; Plain 0; Plain 255] |};
    {| op_type := kDrawRect;
       op_payload := [Plain 0; Plain 0; Plain 10; Plain 10] |};
    {| op_type := kSave; op_payload := [] |};
    {| op_type := kDrawImage; op_payload := [Shared 4096; Plain 5] |};
    {| op_type := kRestore; op_payload := [] |} ].

Definition sample_bounds : SkRect :=
  {| fLeft := 0; fTop := 0; fRight := 1092616192; fBottom := 1092616192 |}.

(** A storage at address [addr] whose region was cut to what is
    written: the encoding of [ops]. *)
Definition storage_of (addr : Z) (ops : list OpRecord) : DlStorage.t :=
  let region := encode_ops ops in
  {| DlStorage.ptr_ := Some {| base := addr; cells := region |};
     DlStorage.disabled_ := false;
     DlStorage.used_ := Z.of_nat (length region);
     DlStorage.allocated_ := Z.of_nat (length region) |}.

(** A display list with identifier [id] that recorded [sample_ops] in a
    storage at address [addr]. *)
Definition sample_list (addr id : Z) : DisplayList :=
  {| storage_ := storage_of addr sample_ops;
     op_count_ := 5;
     nested_byte_count_ := 0;
     nested_op_count_ := 0;
     unique_id_ := id;
     bounds_ := sample_bounds;
     can_apply_group_opacity_ := true;
     is_ui_thread_safe_ := true;
     modifies_transparent_black_ := true;
     rtree_ := None |}.

(** Two display lists finalized from the same operations, with
    different identifiers, in storages at different addresses. *)
Definition sample_pair : DisplayList * DisplayList :=
  (sample_list 65536 1, sample_list 131072 2).

(** A 64-bit target on which a [DisplayList] object takes 120 bytes. *)
Definition lp64_size_t_bits : Z := 64.
Definition lp64_sizeof_DisplayList : Z := 120.

(** A display list that draws another one: three operations of its
    own, seven operations and 400 bytes nested. *)
Definition sample_nested_ops : list OpRecord :=
  [ {| op_type := kSave; op_payload := [] |};
    {| op_type := kDrawDisplayList;
       op_payload := [Shared 8192; Plain 0; Plain 0; Plain 128; Plain 63] |};
    {| op_type := kRestore; op_payload := [] |} ].

Definition sample_nested : DisplayList :=
  {| storage_ := storage_of 196608 sample_nested_ops;
     op_count_ := 3;
     nested_byte_count_ := 400;
     nested_op_count_ := 7;
     unique_id_ := 9;
     bounds_ := sample_bounds;
     can_apply_group_opacity_ := true;
     is_ui_thread_safe_ := true;
     modifies_transparent_black_ := true;
     rtree_ := None |}.

(** A display list whose counts sit at the top of [unsigned int] and
    of a 64-bit [size_t]. *)
Definition sample_saturated : DisplayList :=
  {| storage_ := storage_of 327680 sample_nested_ops;
     op_count_ := 4294967295;
     nested_byte_count_ := 18446744073709551615;
     nested_op_count_ := 2;
     unique_id_ := 11;
     bounds_ := sample_bounds;
     can_apply_group_opacity_ := true;
     is_ui_thread_safe_ := true;
     modifies_transparent_black_ := true;
     rtree_ := None |}.

(* ================================================================== *)
(** * Part II: theorems *)
(* ================================================================== *)

(** ** Fixed-width arithmetic *)

Lemma wrap_in_range (bits x : Z) :
  Width.in_range bits x -> Width.wrap bits x = x.
Proof.
  unfold Width.in_range, Width.wrap. intros H.
  apply Z.mod_small. exact H.
Qed.

Lemma add_wrap_l (bits a b : Z) :
  Width.add bits (Width.wrap bits a) b = Width.add bits a b.
Proof.
  unfold Width.add, Width.wrap. apply Zplus_mod_idemp_l.
Qed.

Lemma add_zero_r (bits a : Z) :
  Width.add bits a 0 = Width.wrap bits a.
Proof.
  unfold Width.add. rewrite Z.add_0_r. reflexivity.
Qed.

Lemma add_add_zero (bits a b : Z) :
  Width.add bits (Width.add bits a b) 0 = Width.add bits a b.
Proof.
  rewrite add_zero_r. unfold Width.add, Width.wrap.
  apply Zmod_mod.
Qed.

Lemma add_exact (bits a b : Z) :
  0 <= a + b < 2 ^ bits -> Width.add bits a b = a + b.
Proof.
  intros H. unfold Width.add. apply wrap_in_range. exact H.
Qed.

(** ** SaveLayerOptions *)

Lemma read_after_write_same (pos : Z) (v : bool) (o : SaveLayerOptions.t) :
  0 <= pos ->
  SaveLayerOptions.read_bitfield pos (SaveLayerOptions.write_bitfield pos v o)
  = v.
Proof.
  intros Hpos. unfold SaveLayerOptions.read_bitfield,
    SaveLayerOptions.write_bitfield. cbn [SaveLayerOptions.flags_].
  destruct v.
  - apply Z.setbit_eq. exact Hpos.
  - apply Z.clearbit_eq.
Qed.

Lemma read_after_write_other (pos n : Z) (v : bool)
  (o : SaveLayerOptions.t) :
  0 <= pos -> pos <> n ->
  Z.testbit (SaveLayerOptions.flags_ (SaveLayerOptions.write_bitfield pos v o))
    n
  = Z.testbit (SaveLayerOptions.flags_ o) n.
Proof.
  intros Hpos Hne. unfold SaveLayerOptions.write_bitfield.
  cbn [SaveLayerOptions.flags_].
  destruct v.
  - apply Z.setbit_neq; assumption.
  - apply Z.clearbit_neq. exact Hne.
Qed.

Lemma neqb_is_negb_eqb (a b : SaveLayerOptions.t) :
  SaveLayerOptions.neqb a b = negb (SaveLayerOptions.eqb a b).
Proof.
  unfold SaveLayerOptions.neqb, SaveLayerOptions.eqb.
  rewrite Z.eqb_compare.
  destruct (SaveLayerOptions.flags_ a ?= SaveLayerOptions.flags_ b);
    reflexivity.
Qed.

(** C8: [operator==] holds exactly when the two flag words are
    equal, which is when they agree at every bit; [operator!=] is its
    negation; both copy constructors and the assignment reproduce the
    flag word; and each of the two [with_...] setters switches its own
    flag on and changes no other bit of the word, so the other flag
    reads as before. *)
Theorem SaveLayerOptions_equality_is_bitwise :
  forall a b : SaveLayerOptions.t,
    (SaveLayerOptions.eqb a b = true
     <-> SaveLayerOptions.flags_ a = SaveLayerOptions.flags_ b)
    /\ (SaveLayerOptions.eqb a b = true
        <-> forall n, Z.testbit (SaveLayerOptions.flags_ a) n
                      = Z.testbit (SaveLayerOptions.flags_ b) n)
    /\ SaveLayerOptions.neqb a b = negb (SaveLayerOptions.eqb a b)
    /\ SaveLayerOptions.flags_ (SaveLayerOptions.copy a)
       = SaveLayerOptions.flags_ a
    /\ SaveLayerOptions.flags_ (SaveLayerOptions.copy_from_pointer a)
       = SaveLayerOptions.flags_ a
    /\ SaveLayerOptions.flags_ (SaveLayerOptions.assign b a)
       = SaveLayerOptions.flags_ a
    /\ (SaveLayerOptions.renders_with_attributes
          (SaveLayerOptions.with_renders_with_attributes a) = true
        /\ SaveLayerOptions.can_distribute_opacity
             (SaveLayerOptions.with_renders_with_attributes a)
           = SaveLayerOptions.can_distribute_opacity a
        /\ forall n, n <> SaveLayerOptions.fRendersWithAttributes_bit ->
             Z.testbit
               (SaveLayerOptions.flags_
                  (SaveLayerOptions.with_renders_with_attributes a)) n
             = Z.testbit (SaveLayerOptions.flags_ a) n)
    /\ (SaveLayerOptions.can_distribute_opacity
          (SaveLayerOptions.with_can_distribute_opacity a) = true
        /\ SaveLayerOptions.renders_with_attributes
             (SaveLayerOptions.with_can_distribute_opacity a)
           = SaveLayerOptions.renders_with_attributes a
        /\ forall n, n <> SaveLayerOptions.fCanDistributeOpacity_bit ->
             Z.testbit
               (SaveLayerOptions.flags_
                  (SaveLayerOptions.with_can_distribute_opacity a)) n
             = Z.testbit (SaveLayerOptions.flags_ a) n).
Proof.
  intros a b.
  assert (Heq : SaveLayerOptions.eqb a b = true
                <-> SaveLayerOptions.flags_ a = SaveLayerOptions.flags_ b).
  { unfold SaveLayerOptions.eqb. apply Z.eqb_eq. }
  split; [exact Heq|].
  split.
  { rewrite Heq. split.
    - intros E n. rewrite E. reflexivity.
    - intros E. apply Z.bits_inj. exact E. }
  split; [apply neqb_is_negb_eqb|].
  repeat (split; [reflexivity|]).
  unfold SaveLayerOptions.with_renders_with_attributes,
    SaveLayerOptions.with_can_distribute_opacity,
    SaveLayerOptions.renders_with_attributes,
    SaveLayerOptions.can_distribute_opacity,
    SaveLayerOptions.fRendersWithAttributes,
    SaveLayerOptions.fCanDistributeOpacity.
  split; (split; [apply read_after_write_same; discriminate|]).
  - split.
    + apply read_after_write_other; discriminate.
    + intros n Hn.
      rewrite read_after_write_other by (discriminate || congruence).
      reflexivity.
  - split.
    + apply read_after_write_other; discriminate.
    + intros n Hn.
      rewrite read_after_write_other by (discriminate || congruence).
      reflexivity.
Qed.

(** C9: [without_optimizations] keeps the renders-with-attributes
    flag of the value it is called on and returns the
    can-distribute-opacity flag cleared. *)
Theorem without_optimizations_keeps_attributes_only :
  forall o : SaveLayerOptions.t,
    SaveLayerOptions.renders_with_attributes
      (SaveLayerOptions.without_optimizations o)
    = SaveLayerOptions.renders_with_attributes o
    /\ SaveLayerOptions.can_distribute_opacity
         (SaveLayerOptions.without_optimizations o)
       = false.
Proof.
  intros o.
  unfold SaveLayerOptions.without_optimizations,
    SaveLayerOptions.renders_with_attributes,
    SaveLayerOptions.can_distribute_opacity,
    SaveLayerOptions.fCanDistributeOpacity.
  split.
  - unfold SaveLayerOptions.fRendersWithAttributes at 1.
    apply read_after_write_same. discriminate.
  - unfold SaveLayerOptions.read_bitfield at 1.
    rewrite read_after_write_other by discriminate.
    reflexivity.
Qed.

(** ** Byte and operation accounting *)

(** With the storage cut to what is written, the debug check of
    [bytes] passes and the sum is returned. *)
Lemma bytes_value (dl : DisplayList) (nested : option bool) :
  DlStorage.used (storage_ dl) = DlStorage.allocated (storage_ dl) ->
  bytes dl nested
  = Some (size_add
            (size_add sizeof_DisplayList (DlStorage.allocated (storage_ dl)))
            (if default_arg true nested then nested_byte_count_ dl else 0)).
Proof.
  intros Hfull. unfold bytes, FML_DCHECK.
  rewrite Hfull, Z.eqb_refl.
  destruct dchecks_enabled; reflexivity.
Qed.

(** With the checks compiled in, a call on a storage that is not cut
    to what is written does not return. *)
Lemma bytes_check_fails (dl : DisplayList) (nested : option bool) :
  dchecks_enabled = true ->
  DlStorage.used (storage_ dl) <> DlStorage.allocated (storage_ dl) ->
  bytes dl nested = None.
Proof.
  intros Hon Hne. unfold bytes, FML_DCHECK.
  apply Z.eqb_neq in Hne. rewrite Hon, Hne. reflexivity.
Qed.

(** C4: for a display list whose storage is cut to what is written
    (used = allocated, as after finalization), [bytes(false)] returns
    [sizeof(DisplayList)] plus the allocated size and [bytes(true)]
    returns [bytes(false)] plus the nested byte count.  The additions
    are those of [size_t]; whenever the members are in the range of
    their types and the whole sum fits [size_t] they are the integer
    sums. *)
Theorem bytes_accounting :
  forall dl : DisplayList,
    DlStorage.used (storage_ dl) = DlStorage.allocated (storage_ dl) ->
    bytes dl (Some false)
    = Some (size_add sizeof_DisplayList (DlStorage.allocated (storage_ dl)))
    /\ (exists b : Z,
          bytes dl (Some false) = Some b
          /\ bytes dl (Some true) = Some (size_add b (nested_byte_count_ dl)))
    /\ (DisplayList_wf dl -> 0 <= sizeof_DisplayList ->
        sizeof_DisplayList + DlStorage.allocated (storage_ dl)
          + nested_byte_count_ dl < 2 ^ size_t_bits ->
        bytes dl (Some false)
        = Some (sizeof_DisplayList + DlStorage.allocated (storage_ dl))
        /\ bytes dl (Some true)
           = Some (sizeof_DisplayList + DlStorage.allocated (storage_ dl)
                   + nested_byte_count_ dl)).
Proof.
  intros dl Hfull.
  pose proof (bytes_value dl (Some false) Hfull) as Hfalse.
  pose proof (bytes_value dl (Some true) Hfull) as Htrue.
  cbn [default_arg] in Hfalse, Htrue.
  unfold size_add in *. rewrite add_add_zero in Hfalse.
  split; [exact Hfalse|].
  split.
  - eexists. split; [exact Hfalse|exact Htrue].
  - intros Hwf Hsz Hfit.
    destruct Hwf as [_ _ [Hn0 _] _ _ [Ha0 _]].
    unfold DlStorage.allocated in *.
    rewrite Hfalse, Htrue.
    rewrite (add_exact size_t_bits sizeof_DisplayList) by lia.
    rewrite add_exact by lia.
    split; reflexivity.
Qed.

(** C10: the two accessors default differently.  [op_count()] is
    [op_count(false)], the local count alone; [bytes()] is
    [bytes(true)], which includes the nested byte count.  Spelled out:
    [op_count(true)] is [op_count(false)] plus the nested operation
    count in [unsigned int] arithmetic, and [bytes(true)] is
    [bytes(false)] plus the nested byte count in [size_t] arithmetic. *)
Theorem accessor_defaults_are_asymmetric :
  forall dl : DisplayList,
    DisplayList_wf dl ->
    DlStorage.used (storage_ dl) = DlStorage.allocated (storage_ dl) ->
    (op_count dl None = op_count dl (Some false)
     /\ op_count dl None = op_count_ dl)
    /\ (bytes dl None = bytes dl (Some true)
        /\ exists b : Z,
             bytes dl (Some false) = Some b
             /\ bytes dl None = Some (size_add b (nested_byte_count_ dl)))
    /\ op_count dl (Some true)
       = uint_add (op_count dl (Some false)) (nested_op_count_ dl)
    /\ (op_count_ dl + nested_op_count_ dl < 2 ^ Width.uint_bits ->
        op_count dl (Some true) = op_count_ dl + nested_op_count_ dl).
Proof.
  intros dl Hwf Hfull.
  destruct Hwf as [Hops Hnops _ _ _ _].
  assert (Hlocal : op_count dl (Some false) = op_count_ dl).
  { unfold op_count, uint_add. cbn [default_arg].
    rewrite add_zero_r. apply wrap_in_range. exact Hops. }
  split.
  { split; [reflexivity|exact Hlocal]. }
  split.
  { split; [reflexivity|].
    exists (size_add sizeof_DisplayList (DlStorage.allocated (storage_ dl))).
    rewrite !bytes_value by exact Hfull. cbn [default_arg].
    unfold size_add. rewrite add_add_zero. split; reflexivity. }
  split.
  { rewrite Hlocal. reflexivity. }
  intros Hfit. unfold op_count, uint_add. cbn [default_arg].
  apply add_exact. unfold Width.in_range in *. lia.
Qed.

(** ** Encoding and decoding of records *)

Lemma enum_of_enum_value (t : DisplayListOpType) :
  enum_of_value (enum_value t) = Some t.
Proof. destruct t; reflexivity. Qed.

Lemma length_field_roundtrip (n : Z) :
  0 <= n < kMaxPayload ->
  n mod 256 + 256 * ((n / 256) mod 256) + 65536 * ((n / 65536) mod 256) = n.
Proof.
  unfold kMaxPayload. intros [Hlo Hhi].
  change (2 ^ 24) with (256 * 65536) in Hhi.
  assert (H2 : (n / 65536) mod 256 = n / 65536).
  { apply Z.mod_small. split.
    - apply Z.div_pos; lia.
    - apply Z.div_lt_upper_bound; lia. }
  rewrite H2.
  pose proof (Z.div_mod n 256 ltac:(lia)) as Hn.
  pose proof (Z.div_mod (n / 256) 256 ltac:(lia)) as Hq.
  rewrite Z.div_div in Hq by lia.
  change (256 * 256) with 65536 in Hq.
  lia.
Qed.

Lemma firstn_length_app {A : Type} (l r : list A) :
  firstn (length l) (l ++ r) = l.
Proof.
  induction l as [|x l IH]; cbn.
  - reflexivity.
  - rewrite IH. reflexivity.
Qed.

Lemma skipn_length_app {A : Type} (l r : list A) :
  skipn (length l) (l ++ r) = r.
Proof.
  induction l as [|x l IH]; cbn.
  - reflexivity.
  - exact IH.
Qed.

(** Decoding at the start of an encoded record gives the record back
    and leaves the cursor right after it. *)
Lemma decode_encode_record (op : OpRecord) (rest : list memval) :
  encodable op = true ->
  decode_record (encode_record op ++ rest) = Some (op, rest).
Proof.
  intros Henc. unfold encodable in Henc.
  apply andb_true_iff in Henc. destruct Henc as [Hlen _].
  apply Z.ltb_lt in Hlen.
  destruct op as [ty payload]. cbn [op_payload op_type] in *.
  unfold encode_record. cbn [op_payload op_type app decode_record].
  rewrite enum_of_enum_value.
  rewrite length_field_roundtrip by lia.
  rewrite Nat2Z.id.
  assert (Hle : (length payload <=? length (payload ++ rest))%nat = true).
  { apply Nat.leb_le. rewrite length_app. lia. }
  rewrite Hle, firstn_length_app, skipn_length_app.
  reflexivity.
Qed.

Lemma encode_record_length (op : OpRecord) :
  length (encode_record op) = (4 + length (op_payload op))%nat.
Proof. reflexivity. Qed.

Lemma encode_ops_cons (op : OpRecord) (ops : list OpRecord) :
  encode_ops (op :: ops) = encode_record op ++ encode_ops ops.
Proof. reflexivity. Qed.

(** A display list over a storage that was cut to the encoding of
    [ops], with their count, recorded [ops]. *)
Lemma storage_of_is_recorded (addr : Z) (ops : list OpRecord)
  (dl : DisplayList) :
  forallb encodable ops = true ->
  storage_ dl = storage_of addr ops ->
  op_count_ dl = Width.wrap Width.uint_bits (Z.of_nat (length ops)) ->
  recorded dl ops.
Proof.
  intros Henc Hst Hcount. unfold recorded.
  rewrite Hst, Hcount. unfold storage_of, DlStorage.written.
  cbn [DlStorage.ptr_ DlStorage.used_ cells].
  rewrite Nat2Z.id, firstn_all.
  split; [reflexivity|]. split; [exact Henc|reflexivity].
Qed.

(** ** The dispatch loop *)

(** Over a region that holds encoded records the loop delivers each of
    them, first to last, and ends at the boundary, whenever the fuel
    covers the length of the region. *)
Lemma dispatch_loop_encoded {St : Type} (ctx : DlOpReceiver St) :
  forall (ops : list OpRecord) (fuel : nat) (s : St),
    forallb encodable ops = true ->
    (length (encode_ops ops) <= fuel)%nat ->
    dispatch_loop fuel ctx (encode_ops ops) s
    = Some (fold_left (fun acc op => deliver ctx op acc) ops s).
Proof.
  induction ops as [|op ops IH]; intros fuel s Henc Hfuel.
  - destruct fuel; reflexivity.
  - cbn [forallb] in Henc. apply andb_true_iff in Henc.
    destruct Henc as [Hop Hops].
    rewrite encode_ops_cons in *.
    rewrite length_app, encode_record_length in Hfuel.
    destruct fuel as [|fuel]; [lia|].
    assert (Hstep : decode_record (encode_record op ++ encode_ops ops)
                    = Some (op, encode_ops ops))
      by (apply decode_encode_record; exact Hop).
    unfold encode_record at 1. cbn [app dispatch_loop].
    unfold encode_record in Hstep at 1. cbn [app] in Hstep.
    rewrite Hstep. cbn [fold_left].
    apply IH; [exact Hops|lia].
Qed.

Lemma fold_recorder (ops calls : list OpRecord) :
  fold_left (fun acc op => deliver recorder op acc) ops calls = calls ++ ops.
Proof.
  revert calls. induction ops as [|op ops IH]; intros calls; cbn [fold_left].
  - rewrite app_nil_r. reflexivity.
  - rewrite IH. unfold deliver. cbn [callback recorder].
    destruct op as [ty payload]. cbn [op_type op_payload].
    rewrite <- app_assoc. reflexivity.
Qed.

(** C1: unconditional [Dispatch] of a display list finalized from
    the recorded operations [ops] returns normally, having invoked, for
    each record in recording order and once per record, the callback of
    the record's kind with the record's payload; a receiver that
    re-records its calls ends with exactly [ops]. *)
Theorem Dispatch_visits_every_record_in_order :
  forall (St : Type) (dl : DisplayList) (ops : list OpRecord)
         (ctx : DlOpReceiver St) (s : St),
    recorded dl ops ->
    Dispatch dl ctx s
    = Some (fold_left
              (fun acc op => callback ctx (op_type op) (op_payload op) acc)
              ops s)
    /\ Dispatch dl recorder [] = Some ops.
Proof.
  intros St dl ops ctx s [Hregion [Henc _]].
  unfold Dispatch. rewrite Hregion.
  split.
  - apply (dispatch_loop_encoded ctx ops); [exact Henc|lia].
  - rewrite (dispatch_loop_encoded recorder ops) by (exact Henc || lia).
    rewrite fold_recorder. reflexivity.
Qed.

(** ** Structural equality *)

(** On two regions that hold encoded records the scan returns, and
    decides record-by-record equality. *)
Lemma compare_ops_encoded :
  forall (opsA opsB : list OpRecord) (fuel : nat),
    forallb encodable opsA = true ->
    forallb encodable opsB = true ->
    (length (encode_ops opsA) <= fuel)%nat ->
    compare_ops fuel (encode_ops opsA) (encode_ops opsB)
    = Some (ops_equal opsA opsB).
Proof.
  induction opsA as [|x opsA IH]; intros [|y opsB] fuel HA HB Hfuel.
  - destruct fuel; reflexivity.
  - destruct fuel; reflexivity.
  - destruct fuel; reflexivity.
  - cbn [forallb] in HA, HB.
    apply andb_true_iff in HA. destruct HA as [Hx HA].
    apply andb_true_iff in HB. destruct HB as [Hy HB].
    rewrite !encode_ops_cons in *.
    rewrite length_app, encode_record_length in Hfuel.
    destruct fuel as [|fuel]; [lia|].
    pose proof (decode_encode_record x (encode_ops opsA) Hx) as Dx.
    pose proof (decode_encode_record y (encode_ops opsB) Hy) as Dy.
    unfold encode_record in Dx at 1. unfold encode_record in Dy at 1.
    unfold encode_record at 1 2. cbn [app compare_ops] in *.
    rewrite Dx, Dy. cbn [ops_equal].
    destruct (record_equals x y); cbn [andb].
    + apply IH; [exact HA|exact HB|lia].
    + reflexivity.
Qed.

(** What [Equals] returns on two finalized display lists. *)
Lemma Equals_recorded (A B : DisplayList) (opsA opsB : list OpRecord) :
  recorded A opsA -> recorded B opsB ->
  Equals A B = Some ((op_count_ A =? op_count_ B) && ops_equal opsA opsB).
Proof.
  intros [HrA [HeA _]] [HrB [HeB _]].
  unfold Equals, Equals_ptr. rewrite HrA, HrB.
  destruct (op_count_ A =? op_count_ B); cbn [andb].
  - apply compare_ops_encoded; [exact HeA|exact HeB|lia].
  - reflexivity.
Qed.

Lemma recorded_same_count (A B : DisplayList) (opsA opsB : list OpRecord) :
  recorded A opsA -> recorded B opsB ->
  length opsA = length opsB -> op_count_ A = op_count_ B.
Proof.
  intros [_ [_ HcA]] [_ [_ HcB]] Hlen.
  rewrite HcA, HcB, Hlen. reflexivity.
Qed.

(** The scan tells display lists apart that differ in one parameter of
    one record. *)
Example Equals_tells_apart :
  let other :=
    [ {| op_type := kSave; op_payload := [] |};
      {| op_type := kDrawDisplayList;
         op_payload := [Shared 8192; Plain 0; Plain 0; Plain 0; Plain 63] |};
      {| op_type := kRestore; op_payload := [] |} ] in
  Equals sample_nested
    {| storage_ := storage_of 262144 other;
       op_count_ := 3;
       nested_byte_count_ := 400;
       nested_op_count_ := 7;
       unique_id_ := 10;
       bounds_ := sample_bounds;
       can_apply_group_opacity_ := true;
       is_ui_thread_safe_ := true;
       modifies_transparent_black_ := true;
       rtree_ := None |}
  = Some false.
Proof.
  cbv zeta. unfold Equals, Equals_ptr.
  cbn [op_count_ sample_nested].
  vm_compute. destruct (res_equals 8192 8192); reflexivity.
Qed.

Section EqualsIsEquivalence.

(** Each resource class's own equality is an equivalence. *)
Hypothesis res_equals_refl : forall h, res_equals h h = true.
Hypothesis res_equals_sym : forall h k, res_equals h k = res_equals k h.
Hypothesis res_equals_trans :
  forall h k l,
    res_equals h k = true -> res_equals k l = true -> res_equals h l = true.

Lemma memval_equals_refl (a : memval) : memval_equals a a = true.
Proof.
  destruct a as [b|h]; cbn.
  - apply Z.eqb_refl.
  - apply res_equals_refl.
Qed.

Lemma memval_equals_sym (a b : memval) :
  memval_equals a b = memval_equals b a.
Proof.
  destruct a as [x|h], b as [y|k]; cbn; try reflexivity.
  - apply Z.eqb_sym.
  - apply res_equals_sym.
Qed.

Lemma memval_equals_trans (a b c : memval) :
  memval_equals a b = true -> memval_equals b c = true ->
  memval_equals a c = true.
Proof.
  destruct a as [x|h], b as [y|k], c as [z|l]; cbn; try discriminate.
  - rewrite !Z.eqb_eq. congruence.
  - apply res_equals_trans.
Qed.

Lemma payload_equals_refl (p : list memval) : payload_equals p p = true.
Proof.
  induction p as [|a p IH]; cbn.
  - reflexivity.
  - rewrite memval_equals_refl, IH. reflexivity.
Qed.

Lemma payload_equals_sym (p q : list memval) :
  payload_equals p q = payload_equals q p.
Proof.
  revert q. induction p as [|a p IH]; intros [|b q]; cbn; try reflexivity.
  rewrite memval_equals_sym, IH. reflexivity.
Qed.

Lemma payload_equals_trans (p q r : list memval) :
  payload_equals p q = true -> payload_equals q r = true ->
  payload_equals p r = true.
Proof.
  revert q r. induction p as [|a p IH]; intros [|b q] [|c r]; cbn;
    try discriminate; try reflexivity.
  rewrite !andb_true_iff. intros [Hab Hpq] [Hbc Hqr].
  split.
  - apply (memval_equals_trans a b c); assumption.
  - apply (IH q r); assumption.
Qed.

Lemma op_type_beq_refl (t : DisplayListOpType) :
  DisplayListOpType_beq t t = true.
Proof. destruct t; reflexivity. Qed.

Lemma op_type_beq_eq (t u : DisplayListOpType) :
  DisplayListOpType_beq t u = true -> t = u.
Proof. apply internal_DisplayListOpType_dec_bl. Qed.

Lemma op_type_beq_sym (t u : DisplayListOpType) :
  DisplayListOpType_beq t u = DisplayListOpType_beq u t.
Proof.
  destruct (DisplayListOpType_beq t u) eqn:E.
  - apply op_type_beq_eq in E. subst u. symmetry. apply op_type_beq_refl.
  - destruct (DisplayListOpType_beq u t) eqn:E'; [|reflexivity].
    apply op_type_beq_eq in E'. subst u.
    rewrite op_type_beq_refl in E. discriminate.
Qed.

Lemma record_equals_refl (x : OpRecord) : record_equals x x = true.
Proof.
  unfold record_equals.
  rewrite op_type_beq_refl, payload_equals_refl. reflexivity.
Qed.

Lemma record_equals_sym (x y : OpRecord) :
  record_equals x y = record_equals y x.
Proof.
  unfold record_equals.
  rewrite op_type_beq_sym, payload_equals_sym. reflexivity.
Qed.

Lemma record_equals_trans (x y z : OpRecord) :
  record_equals x y = true -> record_equals y z = true ->
  record_equals x z = true.
Proof.
  unfold record_equals. rewrite !andb_true_iff.
  intros [Txy Pxy] [Tyz Pyz].
  apply op_type_beq_eq in Txy. apply op_type_beq_eq in Tyz.
  split.
  - rewrite Txy, Tyz. apply op_type_beq_refl.
  - apply (payload_equals_trans _ _ _ Pxy Pyz).
Qed.

Lemma ops_equal_refl (l : list OpRecord) : ops_equal l l = true.
Proof.
  induction l as [|x l IH]; cbn.
  - reflexivity.
  - rewrite record_equals_refl, IH. reflexivity.
Qed.

Lemma ops_equal_sym (l1 l2 : list OpRecord) :
  ops_equal l1 l2 = ops_equal l2 l1.
Proof.
  revert l2. induction l1 as [|x l1 IH]; intros [|y l2]; cbn;
    try reflexivity.
  rewrite record_equals_sym, IH. reflexivity.
Qed.

Lemma ops_equal_trans (l1 l2 l3 : list OpRecord) :
  ops_equal l1 l2 = true -> ops_equal l2 l3 = true ->
  ops_equal l1 l3 = true.
Proof.
  revert l2 l3. induction l1 as [|x l1 IH]; intros [|y l2] [|z l3]; cbn;
    try discriminate; try reflexivity.
  rewrite !andb_true_iff. intros [Hxy H12] [Hyz H23].
  split.
  - apply (record_equals_trans x y z); assumption.
  - apply (IH l2 l3); assumption.
Qed.

(** C3: on finalized display lists [Equals] returns, and it is
    reflexive, symmetric and transitive, provided the equality of each
    resource class is; two display lists finalized from the same
    operation sequence are equal, whatever their unique identifiers and
    the addresses of their storages. *)
Theorem Equals_is_an_equivalence :
  forall (A B C : DisplayList) (opsA opsB opsC : list OpRecord),
    recorded A opsA -> recorded B opsB -> recorded C opsC ->
    Equals A A = Some true
    /\ Equals A B = Equals B A
    /\ (Equals A B = Some true -> Equals B C = Some true ->
        Equals A C = Some true)
    /\ (opsA = opsB -> Equals A B = Some true).
Proof.
  intros A B C opsA opsB opsC HA HB HC.
  rewrite (Equals_recorded A A opsA opsA HA HA).
  rewrite (Equals_recorded A B opsA opsB HA HB).
  rewrite (Equals_recorded B A opsB opsA HB HA).
  rewrite (Equals_recorded B C opsB opsC HB HC).
  rewrite (Equals_recorded A C opsA opsC HA HC).
  split.
  { rewrite Z.eqb_refl, ops_equal_refl. reflexivity. }
  split.
  { rewrite Z.eqb_sym, ops_equal_sym. reflexivity. }
  split.
  { intros HAB HBC.
    injection HAB as HAB. injection HBC as HBC.
    apply andb_true_iff in HAB. destruct HAB as [cAB oAB].
    apply andb_true_iff in HBC. destruct HBC as [cBC oBC].
    apply Z.eqb_eq in cAB. apply Z.eqb_eq in cBC.
    rewrite cAB, cBC, Z.eqb_refl.
    rewrite (ops_equal_trans opsA opsB opsC oAB oBC). reflexivity. }
  intros Hsame. subst opsB.
  rewrite (recorded_same_count A B opsA opsA HA HB eq_refl).
  rewrite Z.eqb_refl, ops_equal_refl. reflexivity.
Qed.

End EqualsIsEquivalence.

(** ** Unique identifiers *)








(** ** Further properties of the header *)

(** *** SaveLayerOptions *)

Lemma eqb_iff_flags (a b : SaveLayerOptions.t) :
  SaveLayerOptions.eqb a b = true
  <-> SaveLayerOptions.flags_ a = SaveLayerOptions.flags_ b.
Proof. unfold SaveLayerOptions.eqb. apply Z.eqb_eq. Qed.

Lemma options_eq_of_flags (a b : SaveLayerOptions.t) :
  SaveLayerOptions.flags_ a = SaveLayerOptions.flags_ b -> a = b.
Proof.
  destruct a as [f], b as [g]. cbn. intros E. rewrite E. reflexivity.
Qed.

(** X2: [operator==] is an equivalence relation; values that
    compare equal read the same through both accessors and still
    compare equal after the same modifier was applied to both; a copy
    and the target of an assignment compare equal to their source. *)
Theorem SaveLayerOptions_eqb_is_a_congruence :
  forall a b c : SaveLayerOptions.t,
    SaveLayerOptions.eqb a a = true
    /\ SaveLayerOptions.eqb a b = SaveLayerOptions.eqb b a
    /\ (SaveLayerOptions.eqb a b = true ->
        SaveLayerOptions.eqb b c = true ->
        SaveLayerOptions.eqb a c = true)
    /\ (SaveLayerOptions.eqb a b = true ->
        SaveLayerOptions.renders_with_attributes a
        = SaveLayerOptions.renders_with_attributes b
        /\ SaveLayerOptions.can_distribute_opacity a
           = SaveLayerOptions.can_distribute_opacity b
        /\ SaveLayerOptions.eqb
             (SaveLayerOptions.with_renders_with_attributes a)
             (SaveLayerOptions.with_renders_with_attributes b) = true
        /\ SaveLayerOptions.eqb
             (SaveLayerOptions.with_can_distribute_opacity a)
             (SaveLayerOptions.with_can_distribute_opacity b) = true
        /\ SaveLayerOptions.eqb
             (SaveLayerOptions.without_optimizations a)
             (SaveLayerOptions.without_optimizations b) = true)
    /\ SaveLayerOptions.eqb (SaveLayerOptions.copy a) a = true
    /\ SaveLayerOptions.eqb (SaveLayerOptions.copy_from_pointer a) a = true
    /\ SaveLayerOptions.eqb (SaveLayerOptions.assign c a) a = true.
Proof.
  intros a b c.
  split; [apply Z.eqb_refl|].
  split; [apply Z.eqb_sym|].
  split.
  { rewrite !eqb_iff_flags. intros Hab Hbc. rewrite Hab. exact Hbc. }
  split.
  { intros Hab. apply eqb_iff_flags in Hab.
    apply options_eq_of_flags in Hab. subst b.
    split; [reflexivity|]. split; [reflexivity|].
    split; [apply Z.eqb_refl|]. split; apply Z.eqb_refl. }
  split; [apply Z.eqb_refl|]. split; apply Z.eqb_refl.
Qed.

Lemma two_bit_cases (f : Z) :
  0 <= f < 4 -> f = 0 \/ f = 1 \/ f = 2 \/ f = 3.
Proof. lia. Qed.

Lemma write_bitfield_two_bits (pos : Z) (v : bool) (o : SaveLayerOptions.t) :
  pos = 0 \/ pos = 1 ->
  0 <= SaveLayerOptions.flags_ o < 4 ->
  0 <= SaveLayerOptions.flags_ (SaveLayerOptions.write_bitfield pos v o) < 4.
Proof.
  intros Hpos Hf. destruct o as [f]. cbn [SaveLayerOptions.flags_] in Hf.
  unfold SaveLayerOptions.write_bitfield. cbn [SaveLayerOptions.flags_].
  apply two_bit_cases in Hf.
  destruct Hpos as [-> | ->], v,
    Hf as [-> | [-> | [-> | ->]]]; vm_compute; split; congruence.
Qed.

Lemma reachable_flags_below_four (o : SaveLayerOptions.t) :
  SaveLayerOptions_reachable o -> 0 <= SaveLayerOptions.flags_ o < 4.
Proof.
  intros Hreach.
  induction Hreach as [ |o _ IH|o _ IH|o _ IH|o _ IH|o _ IH
                        |this other _ _ _ IH].
  - cbn. lia.
  - exact IH.
  - exact IH.
  - unfold SaveLayerOptions.without_optimizations.
    apply write_bitfield_two_bits; [left; reflexivity|cbn; lia].
  - unfold SaveLayerOptions.with_renders_with_attributes.
    apply write_bitfield_two_bits; [left; reflexivity|exact IH].
  - unfold SaveLayerOptions.with_can_distribute_opacity.
    apply write_bitfield_two_bits; [right; reflexivity|exact IH].
  - exact IH.
Qed.

(** X3: a value obtained through the constructors, the member
    functions and assignment of the header never has a bit set other
    than the two flag bits: its flag word is 0, 1, 2 or 3, and so a
    valid [uint32_t]. *)
Theorem reachable_options_use_two_bits :
  forall o : SaveLayerOptions.t,
    SaveLayerOptions_reachable o ->
    0 <= SaveLayerOptions.flags_ o < 4 /\ SaveLayerOptions.wf o.
Proof.
  intros o Hreach.
  pose proof (reachable_flags_below_four o Hreach) as Hsmall.
  split; [exact Hsmall|].
  unfold SaveLayerOptions.wf, Width.in_range. lia.
Qed.

(** X4: for values obtained through the header, [operator==]
    holds exactly when the two values agree on both flags, and
    [operator!=] exactly when they differ on one. *)
Theorem reachable_options_equal_iff_flags_agree :
  forall a b : SaveLayerOptions.t,
    SaveLayerOptions_reachable a ->
    SaveLayerOptions_reachable b ->
    (SaveLayerOptions.eqb a b = true
     <-> SaveLayerOptions.renders_with_attributes a
         = SaveLayerOptions.renders_with_attributes b
         /\ SaveLayerOptions.can_distribute_opacity a
            = SaveLayerOptions.can_distribute_opacity b)
    /\ (SaveLayerOptions.neqb a b = true
        <-> SaveLayerOptions.renders_with_attributes a
            <> SaveLayerOptions.renders_with_attributes b
            \/ SaveLayerOptions.can_distribute_opacity a
               <> SaveLayerOptions.can_distribute_opacity b).
Proof.
  intros a b Ha Hb.
  apply reachable_flags_below_four in Ha.
  apply reachable_flags_below_four in Hb.
  destruct a as [f], b as [g]. cbn [SaveLayerOptions.flags_] in Ha, Hb.
  apply two_bit_cases in Ha. apply two_bit_cases in Hb.
  destruct Ha as [-> | [-> | [-> | ->]]], Hb as [-> | [-> | [-> | ->]]];
    vm_compute; (split; split);
    solve [ intros _; split; reflexivity
          | intros _; reflexivity
          | intros H; discriminate H
          | intros [H _]; discriminate H
          | intros [_ H]; discriminate H
          | intros _; left; discriminate
          | intros _; right; discriminate
          | intros [H|H]; exfalso; apply H; reflexivity ].
Qed.

Lemma SaveLayerOptions_modifier_reads (o : SaveLayerOptions.t) :
  SaveLayerOptions.renders_with_attributes
    (SaveLayerOptions.with_renders_with_attributes o) = true
  /\ SaveLayerOptions.renders_with_attributes
       (SaveLayerOptions.with_can_distribute_opacity o)
     = SaveLayerOptions.renders_with_attributes o
  /\ SaveLayerOptions.can_distribute_opacity
       (SaveLayerOptions.with_renders_with_attributes o)
     = SaveLayerOptions.can_distribute_opacity o.
Proof.
  unfold SaveLayerOptions.with_renders_with_attributes,
    SaveLayerOptions.with_can_distribute_opacity,
    SaveLayerOptions.renders_with_attributes,
    SaveLayerOptions.can_distribute_opacity,
    SaveLayerOptions.fRendersWithAttributes,
    SaveLayerOptions.fCanDistributeOpacity.
  split; [apply read_after_write_same; discriminate|].
  split; apply read_after_write_other; discriminate.
Qed.

Lemma without_optimizations_reads (o : SaveLayerOptions.t) :
  SaveLayerOptions.renders_with_attributes
    (SaveLayerOptions.without_optimizations o)
  = SaveLayerOptions.renders_with_attributes o
  /\ SaveLayerOptions.can_distribute_opacity
       (SaveLayerOptions.without_optimizations o) = false.
Proof.
  unfold SaveLayerOptions.without_optimizations,
    SaveLayerOptions.renders_with_attributes,
    SaveLayerOptions.can_distribute_opacity,
    SaveLayerOptions.fCanDistributeOpacity.
  split.
  - unfold SaveLayerOptions.fRendersWithAttributes at 1.
    apply read_after_write_same. discriminate.
  - unfold SaveLayerOptions.read_bitfield at 1.
    rewrite read_after_write_other by discriminate.
    reflexivity.
Qed.

Lemma setbit_twice (f n : Z) : Z.setbit (Z.setbit f n) n = Z.setbit f n.
Proof.
  rewrite !Z.setbit_spec'. rewrite <- Z.lor_assoc, Z.lor_diag. reflexivity.
Qed.

Lemma setbit_swap (f n m : Z) :
  Z.setbit (Z.setbit f n) m = Z.setbit (Z.setbit f m) n.
Proof.
  rewrite !Z.setbit_spec'. rewrite <- !Z.lor_assoc.
  f_equal. apply Z.lor_comm.
Qed.

Lemma without_optimizations_flags (o : SaveLayerOptions.t) :
  SaveLayerOptions.flags_ (SaveLayerOptions.without_optimizations o)
  = Z.b2z (SaveLayerOptions.renders_with_attributes o).
Proof.
  unfold SaveLayerOptions.without_optimizations,
    SaveLayerOptions.renders_with_attributes,
    SaveLayerOptions.write_bitfield.
  cbn [SaveLayerOptions.flags_].
  destruct (SaveLayerOptions.fRendersWithAttributes o); reflexivity.
Qed.

(** X5: how the modifiers compose, for every flag word.  Each
    [with_...] setter is idempotent and the two commute;
    [without_optimizations] returns a word that holds the
    renders-with-attributes flag and nothing else, so it is idempotent,
    it undoes [with_can_distribute_opacity], and after
    [with_renders_with_attributes] it gives the word 1. *)
Theorem SaveLayerOptions_modifiers_compose :
  forall o : SaveLayerOptions.t,
    SaveLayerOptions.with_renders_with_attributes
      (SaveLayerOptions.with_renders_with_attributes o)
    = SaveLayerOptions.with_renders_with_attributes o
    /\ SaveLayerOptions.with_can_distribute_opacity
         (SaveLayerOptions.with_can_distribute_opacity o)
       = SaveLayerOptions.with_can_distribute_opacity o
    /\ SaveLayerOptions.with_renders_with_attributes
         (SaveLayerOptions.with_can_distribute_opacity o)
       = SaveLayerOptions.with_can_distribute_opacity
           (SaveLayerOptions.with_renders_with_attributes o)
    /\ SaveLayerOptions.flags_ (SaveLayerOptions.without_optimizations o)
       = Z.b2z (SaveLayerOptions.renders_with_attributes o)
    /\ SaveLayerOptions.without_optimizations
         (SaveLayerOptions.without_optimizations o)
       = SaveLayerOptions.without_optimizations o
    /\ SaveLayerOptions.without_optimizations
         (SaveLayerOptions.with_can_distribute_opacity o)
       = SaveLayerOptions.without_optimizations o
    /\ SaveLayerOptions.without_optimizations
         (SaveLayerOptions.with_renders_with_attributes o)
       = SaveLayerOptions.Make 1.
Proof.
  intros o.
  pose proof (SaveLayerOptions_modifier_reads o) as [Hrr [Hcr Hrc]].
  split.
  { apply options_eq_of_flags. cbn. apply setbit_twice. }
  split.
  { apply options_eq_of_flags. cbn. apply setbit_twice. }
  split.
  { apply options_eq_of_flags. cbn. apply setbit_swap. }
  split; [apply without_optimizations_flags|].
  split.
  { apply options_eq_of_flags. rewrite !without_optimizations_flags.
    destruct (SaveLayerOptions.renders_with_attributes o) eqn:E.
    - rewrite (proj1 (without_optimizations_reads o)), E. reflexivity.
    - rewrite (proj1 (without_optimizations_reads o)), E. reflexivity. }
  split.
  { apply options_eq_of_flags. rewrite !without_optimizations_flags.
    rewrite Hcr. reflexivity. }
  apply options_eq_of_flags. rewrite without_optimizations_flags.
  rewrite Hrr. reflexivity.
Qed.

(** *** The accessors at their edges *)

Lemma wrap_after_one_overflow (bits x : Z) :
  2 ^ bits <= x < 2 * 2 ^ bits -> Width.wrap bits x = x - 2 ^ bits.
Proof.
  intros Hx. unfold Width.wrap.
  replace x with ((x - 2 ^ bits) + 1 * 2 ^ bits) at 1 by lia.
  rewrite Z_mod_plus_full. apply Z.mod_small. lia.
Qed.

(** X7: [op_count(true)] in [unsigned int] arithmetic.  While the
    local and the nested count together fit 32 bits it is their sum and
    at least [op_count(false)]; once they do not, it is the sum less
    2^32 and falls below [op_count(false)]. *)
Theorem op_count_wraps_at_uint_max :
  forall dl : DisplayList,
    DisplayList_wf dl ->
    (op_count_ dl + nested_op_count_ dl < 2 ^ 32 ->
     op_count dl (Some true) = op_count_ dl + nested_op_count_ dl
     /\ op_count dl (Some false) <= op_count dl (Some true))
    /\ (2 ^ 32 <= op_count_ dl + nested_op_count_ dl ->
        op_count dl (Some true)
        = op_count_ dl + nested_op_count_ dl - 2 ^ 32
        /\ op_count dl (Some true) < op_count dl (Some false)).
Proof.
  intros dl [Hops Hnops _ _ _ _].
  unfold Width.in_range, Width.uint_bits in Hops, Hnops.
  assert (Hlocal : op_count dl (Some false) = op_count_ dl).
  { unfold op_count, uint_add. cbn [default_arg].
    rewrite add_zero_r. apply wrap_in_range. exact Hops. }
  rewrite Hlocal.
  unfold op_count, uint_add, Width.add, Width.uint_bits. cbn [default_arg].
  split.
  - intros Hfit. rewrite wrap_in_range by (unfold Width.in_range; lia).
    split; lia.
  - intros Hover. rewrite wrap_after_one_overflow by lia.
    split; lia.
Qed.

(** X8: [bytes(true)] in [size_t] arithmetic, for a display list
    whose object and storage sizes together fit [size_t].  While adding
    the nested byte count still fits, [bytes(true)] is the full sum and
    at least [bytes(false)]; once it does not, [bytes(true)] is the sum
    less 2^size_t_bits and falls below [bytes(false)]. *)
Theorem bytes_wraps_at_size_max :
  forall dl : DisplayList,
    DisplayList_wf dl ->
    DlStorage.used (storage_ dl) = DlStorage.allocated (storage_ dl) ->
    0 <= sizeof_DisplayList ->
    sizeof_DisplayList + DlStorage.allocated (storage_ dl)
      < 2 ^ size_t_bits ->
    exists b_false b_true : Z,
      bytes dl (Some false) = Some b_false
      /\ bytes dl (Some true) = Some b_true
      /\ b_false = sizeof_DisplayList + DlStorage.allocated (storage_ dl)
      /\ (b_false + nested_byte_count_ dl < 2 ^ size_t_bits ->
          b_true = b_false + nested_byte_count_ dl /\ b_false <= b_true)
      /\ (2 ^ size_t_bits <= b_false + nested_byte_count_ dl ->
          b_true = b_false + nested_byte_count_ dl - 2 ^ size_t_bits
          /\ b_true < b_false).
Proof.
  intros dl [_ _ Hnb _ _ Halloc] Hfull Hsz Hobj.
  unfold Width.in_range in Hnb, Halloc.
  unfold DlStorage.allocated in *.
  rewrite !bytes_value by exact Hfull. cbn [default_arg].
  unfold size_add, DlStorage.allocated. rewrite add_add_zero.
  rewrite (add_exact size_t_bits sizeof_DisplayList) by lia.
  eexists. eexists.
  split; [reflexivity|]. split; [reflexivity|]. split; [reflexivity|].
  unfold Width.add. split.
  - intros Hfit. rewrite wrap_in_range by (unfold Width.in_range; lia).
    split; lia.
  - intros Hover. rewrite wrap_after_one_overflow by lia.
    split; lia.
Qed.


End DisplayListModel.

(* ================================================================== *)
(** * Part III: the theorems at concrete values *)
(* ================================================================== *)

Lemma sample_nested_wf : DisplayList_wf lp64_size_t_bits sample_nested.
Proof.
  constructor; unfold Width.in_range; vm_compute; split; congruence.
Defined.

Lemma sample_pair_recorded :
  recorded (fst sample_pair) sample_ops
  /\ recorded (snd sample_pair) sample_ops.
Proof.
  split; (split; [reflexivity|split; reflexivity]).
Defined.

Lemma sample_nested_recorded : recorded sample_nested sample_nested_ops.
Proof.
  split; [reflexivity|split; reflexivity].
Defined.

(** The nested sample on the 64-bit target: 17 bytes of storage, 400
    nested bytes. *)
Lemma bytes_accounting_witness :
  DlStorage.used (storage_ sample_nested)
  = DlStorage.allocated (storage_ sample_nested)
  /\ bytes lp64_size_t_bits lp64_sizeof_DisplayList true sample_nested (Some false)
     = Some 137
  /\ bytes lp64_size_t_bits lp64_sizeof_DisplayList true sample_nested (Some true)
     = Some 537.
Proof.
  assert (Hfull : DlStorage.used (storage_ sample_nested)
                  = DlStorage.allocated (storage_ sample_nested))
    by reflexivity.
  destruct (bytes_accounting lp64_size_t_bits lp64_sizeof_DisplayList true
              sample_nested Hfull) as [_ [_ Hexact]].
  destruct (Hexact sample_nested_wf) as [Hfalse Htrue].
  - vm_compute. congruence.
  - vm_compute. reflexivity.
  - split; [exact Hfull|]. split; [exact Hfalse|exact Htrue].
Defined.

Lemma accessor_defaults_witness :
  DisplayList_wf lp64_size_t_bits sample_nested
  /\ op_count sample_nested None = 3
  /\ op_count sample_nested (Some true) = 10
  /\ bytes lp64_size_t_bits lp64_sizeof_DisplayList true sample_nested None
     = bytes lp64_size_t_bits lp64_sizeof_DisplayList true sample_nested
         (Some true).
Proof.
  destruct (accessor_defaults_are_asymmetric lp64_size_t_bits
              lp64_sizeof_DisplayList true sample_nested sample_nested_wf
              eq_refl)
    as [[_ Hlocal] [[Hbytes _] [_ Hsum]]].
  split; [exact sample_nested_wf|].
  split; [exact Hlocal|].
  split; [|exact Hbytes].
  apply Hsum. vm_compute. reflexivity.
Defined.

Lemma Dispatch_witness :
  recorded (fst sample_pair) sample_ops
  /\ Dispatch (fst sample_pair) recorder [] = Some sample_ops.
Proof.
  destruct sample_pair_recorded as [HA _].
  split; [exact HA|].
  exact (proj2 (Dispatch_visits_every_record_in_order
                  (list OpRecord) (fst sample_pair) sample_ops
                  recorder [] HA)).
Defined.

Lemma Z_eqb_trans (h k l : Z) :
  (h =? k) = true -> (k =? l) = true -> (h =? l) = true.
Proof.
  rewrite !Z.eqb_eq. intros H1 H2. rewrite H1. exact H2.
Defined.

(** The two sample display lists were finalized from the same
    operations; their identifiers and storage addresses differ. *)
Lemma Equals_witness :
  recorded (fst sample_pair) sample_ops
  /\ recorded (snd sample_pair) sample_ops
  /\ unique_id (fst sample_pair) <> unique_id (snd sample_pair)
  /\ DlStorage.get (storage_ (fst sample_pair))
     <> DlStorage.get (storage_ (snd sample_pair))
  /\ Equals Z.eqb (fst sample_pair) (snd sample_pair) = Some true
  /\ Equals Z.eqb (snd sample_pair) (fst sample_pair) = Some true.
Proof.
  destruct sample_pair_recorded as [HA HB].
  destruct (Equals_is_an_equivalence Z.eqb Z.eqb_refl Z.eqb_sym Z_eqb_trans
              (fst sample_pair) (snd sample_pair) (fst sample_pair)
              sample_ops sample_ops sample_ops HA HB HA)
    as [_ [Hsym [_ Hsame]]].
  split; [exact HA|]. split; [exact HB|].
  split; [discriminate|]. split; [discriminate|].
  split.
  - apply Hsame. reflexivity.
  - rewrite <- Hsym. apply Hsame. reflexivity.
Defined.


(** ** The further properties at concrete values *)

Lemma sample_saturated_wf : DisplayList_wf lp64_size_t_bits sample_saturated.
Proof.
  constructor; unfold Width.in_range; vm_compute; split; congruence.
Defined.

(** [with_can_distribute_opacity] of [with_renders_with_attributes] of
    the default value: the flag word 3. *)
Lemma reachable_options_witness :
  SaveLayerOptions_reachable
    (SaveLayerOptions.with_can_distribute_opacity
       (SaveLayerOptions.with_renders_with_attributes
          SaveLayerOptions.default))
  /\ 0 <= SaveLayerOptions.flags_
            (SaveLayerOptions.with_can_distribute_opacity
               (SaveLayerOptions.with_renders_with_attributes
                  SaveLayerOptions.default)) < 4.
Proof.
  assert (Hreach : SaveLayerOptions_reachable
                     (SaveLayerOptions.with_can_distribute_opacity
                        (SaveLayerOptions.with_renders_with_attributes
                           SaveLayerOptions.default))).
  { apply reach_with_can_distribute_opacity.
    apply reach_with_renders_with_attributes.
    apply reach_default. }
  split; [exact Hreach|].
  exact (proj1 (reachable_options_use_two_bits _ Hreach)).
Defined.

(** Two routes to the value that renders with attributes and cannot
    distribute opacity. *)
Lemma reachable_equality_witness :
  let a :=
    SaveLayerOptions.with_renders_with_attributes SaveLayerOptions.default in
  let b :=
    SaveLayerOptions.without_optimizations
      (SaveLayerOptions.with_can_distribute_opacity
         (SaveLayerOptions.with_renders_with_attributes
            SaveLayerOptions.default)) in
  SaveLayerOptions_reachable a
  /\ SaveLayerOptions_reachable b
  /\ SaveLayerOptions.eqb a b = true.
Proof.
  intros a b.
  assert (Ha : SaveLayerOptions_reachable a).
  { apply reach_with_renders_with_attributes. apply reach_default. }
  assert (Hb : SaveLayerOptions_reachable b).
  { apply reach_without_optimizations.
    apply reach_with_can_distribute_opacity.
    apply reach_with_renders_with_attributes.
    apply reach_default. }
  split; [exact Ha|]. split; [exact Hb|].
  apply (proj1 (reachable_options_equal_iff_flags_agree a b Ha Hb)).
  split; reflexivity.
Defined.

(** 2^32 - 1 local operations and 2 nested ones: [op_count(true)] is 1. *)
Lemma op_count_wraps_witness :
  DisplayList_wf lp64_size_t_bits sample_saturated
  /\ op_count sample_saturated (Some true) = 1
  /\ op_count sample_saturated (Some true)
     < op_count sample_saturated (Some false).
Proof.
  destruct (op_count_wraps_at_uint_max lp64_size_t_bits sample_saturated
              sample_saturated_wf) as [_ Hover].
  destruct Hover as [Hvalue Hbelow].
  - vm_compute. congruence.
  - split; [exact sample_saturated_wf|].
    split; [exact Hvalue|exact Hbelow].
Defined.

(** 137 bytes of object and storage and 2^64 - 1 nested bytes:
    [bytes(true)] is 136. *)
Lemma bytes_wraps_witness :
  DisplayList_wf lp64_size_t_bits sample_saturated
  /\ exists b_false b_true : Z,
       bytes lp64_size_t_bits lp64_sizeof_DisplayList true sample_saturated
         (Some false) = Some b_false
       /\ bytes lp64_size_t_bits lp64_sizeof_DisplayList true
            sample_saturated (Some true) = Some b_true
       /\ b_false = 137
       /\ b_true = 136.
Proof.
  split; [exact sample_saturated_wf|].
  destruct (bytes_wraps_at_size_max lp64_size_t_bits
              lp64_sizeof_DisplayList true sample_saturated
              sample_saturated_wf eq_refl)
    as [b_false [b_true [Hfalse [Htrue [Hsum [_ Hover]]]]]].
  - vm_compute. congruence.
  - vm_compute. reflexivity.
  - exists b_false, b_true.
    split; [exact Hfalse|]. split; [exact Htrue|].
    assert (Hb : b_false = 137) by (rewrite Hsum; reflexivity).
    split; [exact Hb|].
    destruct Hover as [Hvalue _].
    + rewrite Hb. vm_compute. congruence.
    + rewrite Hvalue, Hb. reflexivity.
Defined.

